(** * The event-count issue reproducer (main.go), embedded in Rocq

    The program creates a Deployment, polls the events of every pod of the
    default namespace once a second and reports, for each event, whether its
    deprecated count is zero; on an interrupt it deletes the Deployment.

    Layout of the development:
    - [Fmt]: the fragment of Go's [fmt] used by the program;
    - [fields]: field selectors (k8s.io/apimachinery/pkg/fields);
    - [metav1], [resource], [apiv1], [appsv1], [eventsv1]: the API objects the
      program builds or reads;
    - [Reproducer]: the program itself, as statements over the trace of what
      the process has done, run against a control plane given as functions;
    - [Scenarios]: concrete control planes;
    - [Behaviour]: predicates on statements and runs;
    - [FmtFacts], [ReproducerFacts], [RunFacts]: the properties proved. *)

From Stdlib Require Import ZArith List String Ascii Bool Lia.
From Stdlib Require Import DecimalString DecimalZ.
Import ListNotations.

Set Warnings "-register-all".

Local Open Scope string_scope.
Local Open Scope list_scope.

(* ------------------------------------------------------------------ *)
(** ** Go's [fmt], as far as main.go uses it *)
(* ------------------------------------------------------------------ *)

Module Fmt.

(** Go strings are byte sequences; [string] is used for them. *)
Definition LF : string := String (ascii_of_nat 10) EmptyString.
Definition dquote : ascii := ascii_of_nat 34.
Definition backslash : ascii := ascii_of_nat 92.

(** [%d]: signed decimal, a leading '-' for negative values. *)
Definition fmt_d (n : Z) : string := NilZero.string_of_int (Z.to_int n).

Definition hexDigit (n : nat) : ascii :=
  if Nat.ltb n 10 then ascii_of_nat (48 + n) else ascii_of_nat (87 + n).

(** strconv.Quote on one byte.  Bytes above 0x7f are copied, which is what Go
    does for printable UTF-8 text. *)
Definition quoteByte (c : ascii) : string :=
  let n := nat_of_ascii c in
  if Ascii.eqb c dquote then String backslash (String dquote EmptyString)
  else if Ascii.eqb c backslash then String backslash (String backslash EmptyString)
  else if Nat.eqb n 7 then String backslash "a"
  else if Nat.eqb n 8 then String backslash "b"
  else if Nat.eqb n 12 then String backslash "f"
  else if Nat.eqb n 10 then String backslash "n"
  else if Nat.eqb n 13 then String backslash "r"
  else if Nat.eqb n 9 then String backslash "t"
  else if Nat.eqb n 11 then String backslash "v"
  else if Nat.ltb n 32 || Nat.eqb n 127 then
    String backslash (String "x" (String (hexDigit (n / 16)) (String (hexDigit (n mod 16)) EmptyString)))
  else String c EmptyString.

Fixpoint quoteBody (s : string) : string :=
  match s with
  | EmptyString => EmptyString
  | String c r => quoteByte c ++ quoteBody r
  end.

(** [%q] on a string. *)
Definition fmt_q (s : string) : string :=
  String dquote (quoteBody s ++ String dquote EmptyString).

(** The operands main.go passes to the formatting functions: strings (and
    errors, printed through their Error() text) and int32 counters. *)
Inductive Arg : Type :=
| ArgStr (s : string)
| ArgInt32 (n : Z).

Definition argDump (a : Arg) : string :=
  match a with
  | ArgStr s => "string=" ++ s
  | ArgInt32 n => "int32=" ++ fmt_d n
  end.

(** One verb applied to one operand.  The program only uses [%s] and [%q] on
    strings and [%d] on integers; a verb that does not fit its operand prints
    Go's bad-verb marker. *)
Definition verb (v : ascii) (a : Arg) : string :=
  match a with
  | ArgStr s =>
      if Ascii.eqb v "s" then s
      else if Ascii.eqb v "q" then fmt_q s
      else "%!" ++ String v ("(" ++ argDump a ++ ")")
  | ArgInt32 n =>
      if Ascii.eqb v "d" then fmt_d n
      else "%!" ++ String v ("(" ++ argDump a ++ ")")
  end.

Fixpoint extra (args : list Arg) : string :=
  match args with
  | [] => EmptyString
  | [a] => argDump a
  | a :: rest => argDump a ++ ", " ++ extra rest
  end.

(** fmt.Sprintf for formats made of text, [%%] and one-letter verbs. *)
Fixpoint Sprintf (format : string) (args : list Arg) : string :=
  match format with
  | EmptyString =>
      match args with
      | [] => EmptyString
      | _ => "%!(EXTRA " ++ extra args ++ ")"
      end
  | String c rest =>
      if Ascii.eqb c "%" then
        match rest with
        | EmptyString => "%!(NOVERB)"
        | String v rest' =>
            if Ascii.eqb v "%" then String "%" (Sprintf rest' args)
            else match args with
                 | [] => "%!" ++ String v ("(MISSING)" ++ Sprintf rest' [])
                 | a :: args' => verb v a ++ Sprintf rest' args'
                 end
        end
      else String c (Sprintf rest args)
  end.

End Fmt.

(* ------------------------------------------------------------------ *)
(** ** Field selectors (k8s.io/apimachinery/pkg/fields)

    main.go imports this package; its text is not part of the repository.
    The definitions below follow the upstream implementation of
    [ParseSelector] and of the [String] method of the selectors it builds.
    Strings are read byte by byte: the delimiters are ASCII, so this agrees
    with Go's rune iteration on UTF-8 text. *)
(* ------------------------------------------------------------------ *)

Module fields.

Definition isBackslash (c : ascii) : bool := Ascii.eqb c Fmt.backslash.
Definition isComma (c : ascii) : bool := Ascii.eqb c ",".
Definition isEquals (c : ascii) : bool := Ascii.eqb c "=".

(** The bytes [EscapeValue] escapes and [UnescapeValue] treats specially. *)
Definition special (c : ascii) : bool := isBackslash c || isComma c || isEquals c.

Inductive Selector : Type :=
| hasTerm (field value : string)
| notHasTerm (field value : string)
| andTerm (terms : list Selector).

Inductive ParseError : Type :=
| CannotUnderstand (selector part : string)
| InvalidEscapeSequence (sequence : string)
| UnescapedRune (r : ascii).

Definition Error (e : ParseError) : string :=
  match e with
  | CannotUnderstand selector part =>
      Fmt.Sprintf "invalid selector: '%s'; can't understand '%s'"
                  [Fmt.ArgStr selector; Fmt.ArgStr part]
  | InvalidEscapeSequence sequence =>
      Fmt.Sprintf "invalid field selector: invalid escape sequence: %s" [Fmt.ArgStr sequence]
  | UnescapedRune r =>
      Fmt.Sprintf "invalid field selector: unescaped character in value: %d"
                  [Fmt.ArgInt32 (Z.of_nat (nat_of_ascii r))]
  end.

(** valueEscaper: backslash, comma and equals each get a backslash. *)
Fixpoint EscapeValue (s : string) : string :=
  match s with
  | EmptyString => EmptyString
  | String c r =>
      if special c then String Fmt.backslash (String c (EscapeValue r))
      else String c (EscapeValue r)
  end.

Fixpoint ContainsSpecial (s : string) : bool :=
  match s with
  | EmptyString => false
  | String c r => special c || ContainsSpecial r
  end.

Fixpoint unescapeFrom (inSlash : bool) (s : string) : string + ParseError :=
  match s with
  | EmptyString =>
      if inSlash then inr (InvalidEscapeSequence (String Fmt.backslash EmptyString))
      else inl EmptyString
  | String c r =>
      if inSlash then
        if special c then
          match unescapeFrom false r with
          | inl v => inl (String c v)
          | inr e => inr e
          end
        else inr (InvalidEscapeSequence (String Fmt.backslash (String c EmptyString)))
      else if isBackslash c then unescapeFrom true r
      else if isComma c || isEquals c then inr (UnescapedRune c)
      else match unescapeFrom false r with
           | inl v => inl (String c v)
           | inr e => inr e
           end
  end.

Definition UnescapeValue (s : string) : string + ParseError :=
  if negb (ContainsSpecial s) then inl s else unescapeFrom false s.

(** The scan of [splitTerms]: the term being read, then the later terms. *)
Fixpoint splitFrom (inSlash : bool) (s : string) : string * list string :=
  match s with
  | EmptyString => (EmptyString, [])
  | String c r =>
      if inSlash then
        let (cur, later) := splitFrom false r in (String c cur, later)
      else if isBackslash c then
        let (cur, later) := splitFrom true r in (String c cur, later)
      else if isComma c then
        let (cur, later) := splitFrom false r in (EmptyString, cur :: later)
      else
        let (cur, later) := splitFrom false r in (String c cur, later)
  end.

Definition splitTerms (fieldSelector : string) : list string :=
  match fieldSelector with
  | EmptyString => []
  | _ => let (cur, later) := splitFrom false fieldSelector in cur :: later
  end.

Definition notEqualOperator : string := "!=".
Definition doubleEqualOperator : string := "==".
Definition equalOperator : string := "=".
Definition termOperators : list string :=
  [notEqualOperator; doubleEqualOperator; equalOperator].

Fixpoint dropPrefix (op s : string) : option string :=
  match op, s with
  | EmptyString, _ => Some s
  | String a op', String b s' => if Ascii.eqb a b then dropPrefix op' s' else None
  | String _ _, EmptyString => None
  end.

(** The first operator of [ops] that [remaining] starts with. *)
Fixpoint firstOperator (ops : list string) (remaining : string) : option (string * string) :=
  match ops with
  | [] => None
  | op :: ops' =>
      match dropPrefix op remaining with
      | Some rhs => Some (op, rhs)
      | None => firstOperator ops' remaining
      end
  end.

Fixpoint splitTerm (term : string) : option (string * string * string) :=
  match firstOperator termOperators term with
  | Some (op, rhs) => Some (EmptyString, op, rhs)
  | None =>
      match term with
      | EmptyString => None
      | String c r =>
          match splitTerm r with
          | Some (lhs, op, rhs) => Some (String c lhs, op, rhs)
          | None => None
          end
      end
  end.

(** sort.StringSlice: ascending in the byte-wise order of Go strings. *)
Fixpoint insertSorted (s : string) (l : list string) : list string :=
  match l with
  | [] => [s]
  | x :: r => if String.leb s x then s :: l else x :: insertSorted s r
  end.

Definition sortStrings (l : list string) : list string :=
  fold_right insertSorted [] l.

Fixpoint parseTerms (selector : string) (parts : list string) : list Selector + ParseError :=
  match parts with
  | [] => inl []
  | part :: rest =>
      match part with
      | EmptyString => parseTerms selector rest
      | _ =>
          match splitTerm part with
          | None => inr (CannotUnderstand selector part)
          | Some (lhs, op, rhs) =>
              match UnescapeValue rhs with
              | inr e => inr e
              | inl unescapedRHS =>
                  let item :=
                    if String.eqb op notEqualOperator then Some (notHasTerm lhs unescapedRHS)
                    else if String.eqb op doubleEqualOperator then Some (hasTerm lhs unescapedRHS)
                    else if String.eqb op equalOperator then Some (hasTerm lhs unescapedRHS)
                    else None in
                  match item with
                  | None => inr (CannotUnderstand selector part)
                  | Some it =>
                      match parseTerms selector rest with
                      | inl items => inl (it :: items)
                      | inr e => inr e
                      end
                  end
              end
          end
      end
  end.

Definition Everything : Selector := andTerm [].

Fixpoint Empty (sel : Selector) : bool :=
  match sel with
  | hasTerm _ _ => false
  | notHasTerm _ _ => false
  | andTerm terms => forallb Empty terms
  end.

(** [Transform] with the function ParseSelector passes, which returns the
    field and the value unchanged and no error. *)
Fixpoint Transform (sel : Selector) : Selector :=
  match sel with
  | hasTerm field value =>
      match field, value with
      | EmptyString, EmptyString => Everything
      | _, _ => hasTerm field value
      end
  | notHasTerm field value =>
      match field, value with
      | EmptyString, EmptyString => Everything
      | _, _ => notHasTerm field value
      end
  | andTerm terms => andTerm (filter (fun n => negb (Empty n)) (map Transform terms))
  end.

(** ParseSelector returns a selector and an error, the selector nil (here
    [None]) whenever the error is not. *)
Definition ParseSelector (selector : string) : option Selector * option ParseError :=
  match parseTerms selector (sortStrings (splitTerms selector)) with
  | inr e => (None, Some e)
  | inl [one] => (Some (Transform one), None)
  | inl items => (Some (Transform (andTerm items)), None)
  end.

Fixpoint Join (elems : list string) (sep : string) : string :=
  match elems with
  | [] => EmptyString
  | [e] => e
  | e :: rest => e ++ sep ++ Join rest sep
  end.

Fixpoint Selector_String (sel : Selector) : string :=
  match sel with
  | hasTerm field value => field ++ "=" ++ EscapeValue value
  | notHasTerm field value => field ++ "!=" ++ EscapeValue value
  | andTerm terms => Join (map Selector_String terms) ","
  end.

End fields.

(* ------------------------------------------------------------------ *)
(** ** API objects, with the fields main.go writes or reads *)
(* ------------------------------------------------------------------ *)

Module metav1.

Record ObjectMeta : Type := {
  Name : string;
  Labels : list (string * string)
}.

Record LabelSelector : Type := {
  MatchLabels : list (string * string)
}.

Inductive DeletionPropagation : Type :=
| DeletePropagationOrphan
| DeletePropagationBackground
| DeletePropagationForeground.

Record DeleteOptions : Type := {
  PropagationPolicy : option DeletionPropagation
}.

Record ListOptions : Type := {
  FieldSelector : string
}.

End metav1.

Module resource.

(** A quantity is kept as the text handed to resource.MustParse. *)
Record Quantity : Type := MustParse { text : string }.

End resource.

Module apiv1.

Definition NamespaceDefault : string := "default".

Inductive Protocol : Type := ProtocolTCP | ProtocolUDP | ProtocolSCTP.

Inductive ResourceName : Type := ResourceCPU | ResourceMemory.

Definition ResourceName_eqb (a b : ResourceName) : bool :=
  match a, b with
  | ResourceCPU, ResourceCPU | ResourceMemory, ResourceMemory => true
  | _, _ => false
  end.

(** ResourceList is a Go map; the literal's entries are kept in order. *)
Definition ResourceList : Type := list (ResourceName * resource.Quantity).

Fixpoint lookup (l : ResourceList) (k : ResourceName) : option resource.Quantity :=
  match l with
  | [] => None
  | (k', q) :: r => if ResourceName_eqb k k' then Some q else lookup r k
  end.

Record ContainerPort : Type := {
  Port_Name : string;
  Port_Protocol : Protocol;
  Port_ContainerPort : Z
}.

Record ResourceRequirements : Type := {
  Requests : ResourceList;
  Limits : ResourceList
}.

Record Container : Type := {
  Container_Name : string;
  Image : string;
  Ports : list ContainerPort;
  Resources : ResourceRequirements
}.

Record PodSpec : Type := {
  Containers : list Container
}.

Record PodTemplateSpec : Type := {
  Template_ObjectMeta : metav1.ObjectMeta;
  Template_Spec : PodSpec
}.

Record ObjectReference : Type := {
  Kind : string;
  Ref_Name : string
}.

Record Pod : Type := {
  Pod_Name : string
}.

Record PodList : Type := {
  Pod_Items : list Pod
}.

End apiv1.

Module appsv1.

Record DeploymentSpec : Type := {
  Replicas : option Z;
  Selector : option metav1.LabelSelector;
  Template : apiv1.PodTemplateSpec
}.

Record Deployment : Type := {
  ObjectMeta : metav1.ObjectMeta;
  Spec : DeploymentSpec
}.

End appsv1.

Module eventsv1.

Record EventSeries : Type := {
  Count : Z
}.

(** DeprecatedCount is an int32; the program only compares it with 0 and
    prints it, so no arithmetic can wrap.  Series is a pointer, nil being
    [None]. *)
Record Event : Type := {
  Regarding : apiv1.ObjectReference;
  DeprecatedCount : Z;
  Series : option EventSeries
}.

Record EventList : Type := {
  Items : list Event
}.

End eventsv1.

(* ------------------------------------------------------------------ *)
(** ** main.go *)
(* ------------------------------------------------------------------ *)

Module Reproducer.

Import Fmt.

(** Go errors are kept as their Error() text. *)
Definition error : Type := string.

(** What the process does that can be seen from outside: a write to standard
    output, a call of the control plane, a sleep. *)
Inductive Action : Type :=
| Stdout (s : string)
| CreateDeployment (namespace : string) (d : appsv1.Deployment)
| ListPods (namespace : string) (opts : metav1.ListOptions)
| ListEvents (namespace : string) (opts : metav1.ListOptions)
| DeleteDeployment (namespace name : string) (opts : metav1.DeleteOptions)
| Sleep (seconds : Z).

(** The actions so far, oldest first. *)
Definition Trace : Type := list Action.

(** How a process ends: os.Exit with a status, or an unrecovered panic. *)
Inductive Termination : Type :=
| Exit (code : Z)
| Panic (v : string).

(** A statement either completes with a value, ends the process, or, for the
    endless poll loop, is still running when the iteration budget is used up. *)
Inductive Result (A : Type) : Type :=
| Continue (a : A) (t : Trace)
| Stop (e : Termination) (t : Trace)
| Polling (t : Trace).
Arguments Continue {A} a t.
Arguments Stop {A} e t.
Arguments Polling {A} t.

Definition traceOf {A : Type} (r : Result A) : Trace :=
  match r with
  | Continue _ t | Stop _ t | Polling t => t
  end.

Definition M (A : Type) : Type := Trace -> Result A.

Definition ret {A : Type} (a : A) : M A := fun t => Continue a t.

Definition bind {A B : Type} (c : M A) (k : A -> M B) : M B :=
  fun t =>
    match c t with
    | Continue a t' => k a t'
    | Stop e t' => Stop e t'
    | Polling t' => Polling t'
    end.

Declare Scope go_scope.
Delimit Scope go_scope with go.
Notation "x <- c ;; k" := (bind c (fun x => k))
  (at level 100, c at next level, right associativity) : go_scope.
Notation "' pat <- c ;; k" := (bind c (fun x => match x with pat => k end))
  (at level 100, pat pattern, c at next level, right associativity) : go_scope.
Notation "c ;; k" := (bind c (fun _ => k))
  (at level 100, right associativity) : go_scope.
Local Open Scope go_scope.

Definition emit (a : Action) : M unit := fun t => Continue tt (t ++ [a]).

Definition panic {A : Type} (v : string) : M A := fun t => Stop (Panic v) t.

Definition os_Exit {A : Type} (code : Z) : M A := fun t => Stop (Exit code) t.

(** Using a nil pointer or calling a method of a nil interface value. *)
Definition nilDereference : string :=
  "runtime error: invalid memory address or nil pointer dereference".

Definition deref {A : Type} (p : option A) : M A :=
  match p with
  | Some a => ret a
  | None => panic nilDereference
  end.

Definition Println (s : string) : M unit := emit (Stdout (s ++ LF)).

Definition Printf (format : string) (args : list Arg) : M unit :=
  emit (Stdout (Sprintf format args)).

Definition time_Sleep (seconds : Z) : M unit := emit (Sleep seconds).

(** [for _, x := range l { body }] *)
Fixpoint forRange {A : Type} (l : list A) (body : A -> M unit) : M unit :=
  match l with
  | [] => ret tt
  | x :: r => body x ;; forRange r body
  end.

(** [if err != nil { ... }] *)
Definition ifErr (err : option error) (body : error -> M unit) : M unit :=
  match err with
  | Some e => body e
  | None => ret tt
  end.

(** The control plane and the client configuration, seen from the program.
    Each call answers from the actions so far and its arguments.  A call of
    the typed client returns a pointer (nil is [None]) and an error. *)
Record ControlPlane : Type := {
  clientsetError : option error;
  Deployments_Create :
    Trace -> string -> appsv1.Deployment -> option appsv1.Deployment * option error;
  Pods_List :
    Trace -> string -> metav1.ListOptions -> option apiv1.PodList * option error;
  Events_List :
    Trace -> string -> metav1.ListOptions -> option eventsv1.EventList * option error;
  Deployments_Delete :
    Trace -> string -> string -> metav1.DeleteOptions -> option error
}.

(** v1.DeploymentInterface, obtained from Deployments(namespace): the handle
    is the namespace it is bound to. *)
Definition DeploymentInterface : Type := string.

Definition deploymentName : string := "event-count-issue-reproducer".

Definition int32Ptr (i : Z) : option Z := Some i.

Definition deployment : appsv1.Deployment :=
  {| appsv1.ObjectMeta := {| metav1.Name := deploymentName; metav1.Labels := [] |};
     appsv1.Spec :=
       {| appsv1.Replicas := int32Ptr 2;
          appsv1.Selector := Some {| metav1.MatchLabels := [("app", "demo")] |};
          appsv1.Template :=
            {| apiv1.Template_ObjectMeta :=
                 {| metav1.Name := ""; metav1.Labels := [("app", "demo")] |};
               apiv1.Template_Spec :=
                 {| apiv1.Containers :=
                      [ {| apiv1.Container_Name := "web";
                           apiv1.Image := "nginx:1.12";
                           apiv1.Ports :=
                             [ {| apiv1.Port_Name := "http";
                                  apiv1.Port_Protocol := apiv1.ProtocolTCP;
                                  apiv1.Port_ContainerPort := 80 |} ];
                           apiv1.Resources :=
                             {| apiv1.Requests :=
                                  [ (apiv1.ResourceMemory, resource.MustParse "32Gi");
                                    (apiv1.ResourceCPU, resource.MustParse "500m") ];
                                apiv1.Limits :=
                                  [ (apiv1.ResourceMemory, resource.MustParse "64Gi");
                                    (apiv1.ResourceCPU, resource.MustParse "2000m") ] |} |} ] |} |} |} |}.

(** The body of [for _, ev := range events.Items] (main.go, 121-135). *)
Definition classifyEvent (pod : apiv1.Pod) (ev : eventsv1.Event) : M unit :=
  if negb (String.eqb (apiv1.Kind (eventsv1.Regarding ev)) "Pod") then
    ret tt
  else if Z.eqb (eventsv1.DeprecatedCount ev) 0 then
    let outputMsg :=
      Sprintf "Issue is occuring - Event count is 0 for pod %s. " [ArgStr (apiv1.Pod_Name pod)] in
    let outputMsg :=
      match eventsv1.Series ev with
      | None => (outputMsg ++ "Event series is also nil")%string
      | Some _ => outputMsg
      end in
    Println outputMsg
  else
    Printf ("Issue is no longer occuring - Event count is %d  for pod %s " ++ LF)
           [ArgInt32 (eventsv1.DeprecatedCount ev); ArgStr (apiv1.Pod_Name pod)].

Section Program.

Variable cp : ControlPlane.

Definition Create (c : DeploymentInterface) (d : appsv1.Deployment)
  : M (option appsv1.Deployment * option error) :=
  fun t => Continue (Deployments_Create cp t c d) (t ++ [CreateDeployment c d]).

Definition PodsList (namespace : string) (opts : metav1.ListOptions)
  : M (option apiv1.PodList * option error) :=
  fun t => Continue (Pods_List cp t namespace opts) (t ++ [ListPods namespace opts]).

Definition EventsList (namespace : string) (opts : metav1.ListOptions)
  : M (option eventsv1.EventList * option error) :=
  fun t => Continue (Events_List cp t namespace opts) (t ++ [ListEvents namespace opts]).

Definition Delete (c : DeploymentInterface) (name : string) (opts : metav1.DeleteOptions)
  : M (option error) :=
  fun t => Continue (Deployments_Delete cp t c name opts) (t ++ [DeleteDeployment c name opts]).

(** getClientset panics on the error of BuildConfigFromFlags or NewForConfig;
    flag parsing and the kubeconfig path are left to [clientsetError]. *)
Definition getClientset : M unit :=
  match clientsetError cp with
  | Some e => panic e
  | None => ret tt
  end.

Definition deleteDeployment (deploymentsClient : DeploymentInterface) : M unit :=
  Println "Deleting deployment..." ;;
  let deletePolicy := metav1.DeletePropagationForeground in
  err <- Delete deploymentsClient deploymentName
                {| metav1.PropagationPolicy := Some deletePolicy |} ;;
  match err with
  | Some e => panic e
  | None => Println "Deleted deployment."
  end.

Definition cleanupAndExit (deploymentsClient : DeploymentInterface) : M unit :=
  deleteDeployment deploymentsClient ;;
  Println "Exiting.".

(** The body of [for _, pod := range podList.Items] (main.go, 108-136). *)
Definition podEvents (deploymentsClient : DeploymentInterface) (namespace : string)
           (pod : apiv1.Pod) : M unit :=
  let '(selector, err) :=
    fields.ParseSelector (Sprintf "regarding.name=%s" [ArgStr (apiv1.Pod_Name pod)]) in
  ifErr (option_map fields.Error err) (fun e =>
    Printf "failed to parse field selector: %s" [ArgStr e] ;;
    cleanupAndExit deploymentsClient) ;;
  sel <- deref selector ;;
  '(events, err) <- EventsList namespace
                      {| metav1.FieldSelector := fields.Selector_String sel |} ;;
  ifErr err (fun e =>
    Printf "failed to get events: %s" [ArgStr e] ;;
    cleanupAndExit deploymentsClient) ;;
  events <- deref events ;;
  forRange (eventsv1.Items events) (classifyEvent pod).

(** One turn of the [for { ... }] of main (main.go, 100-139). *)
Definition pollOnce (deploymentsClient : DeploymentInterface) (namespace : string) : M unit :=
  '(podList, err) <- PodsList namespace {| metav1.FieldSelector := "" |} ;;
  ifErr err (fun e =>
    Printf "Error listing pods: %s" [ArgStr e] ;;
    cleanupAndExit deploymentsClient) ;;
  podList <- deref podList ;;
  forRange (apiv1.Pod_Items podList) (podEvents deploymentsClient namespace) ;;
  time_Sleep 1.

(** The loop has no exit; [turns] bounds how many turns are run. *)
Fixpoint pollLoop (turns : nat) (deploymentsClient : DeploymentInterface)
         (namespace : string) : M unit :=
  match turns with
  | O => fun t => Polling t
  | S n => pollOnce deploymentsClient namespace ;; pollLoop n deploymentsClient namespace
  end.

(** The goroutine started by main, from the moment a signal is received. *)
Definition interruptWatcher (deploymentsClient : DeploymentInterface) : M unit :=
  cleanupAndExit deploymentsClient ;;
  os_Exit 0.

Definition main (turns : nat) : M unit :=
  getClientset ;;
  let namespace := apiv1.NamespaceDefault in
  let deploymentsClient : DeploymentInterface := namespace in
  Println "Creating deployment..." ;;
  '(result, err) <- Create deploymentsClient deployment ;;
  ifErr err (fun e =>
    Printf "Error creating deployment: %s" [ArgStr e] ;;
    cleanupAndExit deploymentsClient) ;;
  result <- deref result ;;
  Printf ("Created deployment %q." ++ LF) [ArgStr (metav1.Name (appsv1.ObjectMeta result))] ;;
  pollLoop turns deploymentsClient namespace.

End Program.

(** The runs of teardown in a trace: every run of [deleteDeployment] makes
    exactly one delete call. *)
Definition isDelete (a : Action) : bool :=
  match a with
  | DeleteDeployment _ _ _ => true
  | _ => false
  end.

Definition teardownCount (t : Trace) : nat := List.length (filter isDelete t).

(** A statement only adds actions to the trace it starts from. *)
Definition extends {A : Type} (c : M A) : Prop :=
  forall t : Trace, exists rest : Trace, traceOf (c t) = t ++ rest.

End Reproducer.

(* ------------------------------------------------------------------ *)
(** ** Control planes used as concrete inputs *)
(* ------------------------------------------------------------------ *)

Module Scenarios.

Import Reproducer.

Definition pod (name : string) : apiv1.Pod := {| apiv1.Pod_Name := name |}.

Definition podEvent (name : string) (count : Z) (series : option eventsv1.EventSeries)
  : eventsv1.Event :=
  {| eventsv1.Regarding := {| apiv1.Kind := "Pod"; apiv1.Ref_Name := name |};
     eventsv1.DeprecatedCount := count;
     eventsv1.Series := series |}.

Definition nodeEvent (name : string) (count : Z) : eventsv1.Event :=
  {| eventsv1.Regarding := {| apiv1.Kind := "Node"; apiv1.Ref_Name := name |};
     eventsv1.DeprecatedCount := count;
     eventsv1.Series := None |}.

Definition pods (names : list string) : option apiv1.PodList :=
  Some {| apiv1.Pod_Items := map pod names |}.

Definition events (l : list eventsv1.Event) : option eventsv1.EventList :=
  Some {| eventsv1.Items := l |}.

(** The options of the delete call made by the teardown. *)
Definition foreground : metav1.DeleteOptions :=
  {| metav1.PropagationPolicy := Some metav1.DeletePropagationForeground |}.

(** The zero Deployment the typed client allocates before it decodes a reply. *)
Definition zeroDeployment : appsv1.Deployment :=
  {| appsv1.ObjectMeta := {| metav1.Name := ""; metav1.Labels := [] |};
     appsv1.Spec :=
       {| appsv1.Replicas := None;
          appsv1.Selector := None;
          appsv1.Template :=
            {| apiv1.Template_ObjectMeta := {| metav1.Name := ""; metav1.Labels := [] |};
               apiv1.Template_Spec := {| apiv1.Containers := [] |} |} |} |}.

Definition isListPods (a : Action) : bool :=
  match a with
  | ListPods _ _ => true
  | _ => false
  end.

Definition listPodsCount (t : Trace) : nat := List.length (filter isListPods t).

(** A Deployment of the fixed name already exists: creation is refused, the
    deletion that follows removes the existing one, no pod is left. *)
Definition nameTaken : ControlPlane :=
  {| clientsetError := None;
     Deployments_Create := fun _ _ _ => (Some zeroDeployment, Some "already exists");
     Pods_List := fun _ _ _ => (pods [], None);
     Events_List := fun _ _ _ => (events [], None);
     Deployments_Delete := fun _ _ _ _ => None |}.

(** The first listing of pods times out; every other call succeeds. *)
Definition listingFailsOnce : ControlPlane :=
  {| clientsetError := None;
     Deployments_Create := fun _ _ d => (Some d, None);
     Pods_List := fun t _ _ =>
       if Nat.eqb (listPodsCount t) 0 then (pods [], Some "request timed out")
       else (pods ["web-1"], None);
     Events_List := fun _ _ _ => (events [podEvent "web-1" 0 None], None);
     Deployments_Delete := fun _ _ _ _ => None |}.

(** Two pods; the event query for the first one fails, the second one has
    one event with count 5. *)
Definition eventQueryFails : ControlPlane :=
  {| clientsetError := None;
     Deployments_Create := fun _ _ d => (Some d, None);
     Pods_List := fun _ _ _ => (pods ["web-1"; "web-2"], None);
     Events_List := fun _ _ opts =>
       if String.eqb (metav1.FieldSelector opts) "regarding.name=web-1"
       then (events [], Some "request timed out")
       else (events [podEvent "web-2" 5 None], None);
     Deployments_Delete := fun _ _ _ _ => None |}.

(** Listing pods is always refused; the Deployment can be deleted once and
    is not found afterwards. *)
Definition listingForbidden : ControlPlane :=
  {| clientsetError := None;
     Deployments_Create := fun _ _ d => (Some d, None);
     Pods_List := fun _ _ _ => (pods [], Some "forbidden");
     Events_List := fun _ _ _ => (events [], None);
     Deployments_Delete := fun t _ _ _ =>
       if Nat.eqb (teardownCount t) 0 then None else Some "not found" |}.

(** A listing that names a pod with a comma in its name. *)
Definition oddPodName : ControlPlane :=
  {| clientsetError := None;
     Deployments_Create := fun _ _ d => (Some d, None);
     Pods_List := fun _ _ _ => (pods ["a,b"], None);
     Events_List := fun _ _ _ => (events [], None);
     Deployments_Delete := fun _ _ _ _ => None |}.

(** One pod with one event, as in the end-to-end scenarios of the
    specification. *)
Definition onePodOneEvent (ev : eventsv1.Event) : ControlPlane :=
  {| clientsetError := None;
     Deployments_Create := fun _ _ d => (Some d, None);
     Pods_List := fun _ _ _ => (pods ["web-1"], None);
     Events_List := fun _ _ _ => (events [ev], None);
     Deployments_Delete := fun _ _ _ _ => None |}.

End Scenarios.

(* ------------------------------------------------------------------ *)
(** ** Vocabulary for statements about whole runs *)
(* ------------------------------------------------------------------ *)

Module Behaviour.

Import Fmt Reproducer Scenarios.

Local Open Scope go_scope.


Definition isCreate (a : Action) : bool :=
  match a with
  | CreateDeployment _ _ => true
  | _ => false
  end.

Definition notCreate (a : Action) : bool := negb (isCreate a).

Definition notDelete (a : Action) : bool := negb (isDelete a).

Definition isStdout (a : Action) : bool :=
  match a with
  | Stdout _ => true
  | _ => false
  end.

(** The field selectors of the event queries of a trace, in order. *)
Definition eventQueries (t : Trace) : list string :=
  flat_map (fun a => match a with
                     | ListEvents _ opts => [metav1.FieldSelector opts]
                     | _ => []
                     end) t.

Definition isForeground (opts : metav1.DeleteOptions) : bool :=
  match metav1.PropagationPolicy opts with
  | Some metav1.DeletePropagationForeground => true
  | _ => false
  end.

(** The calls main.go is written to make: everything in the default
    namespace, pods listed without a filter, deletions of the fixed name with
    foreground propagation, sleeps of one second. *)
Definition expected (a : Action) : bool :=
  match a with
  | Stdout _ => true
  | CreateDeployment ns _ => String.eqb ns "default"
  | ListPods ns opts => String.eqb ns "default" && String.eqb (metav1.FieldSelector opts) ""
  | ListEvents ns _ => String.eqb ns "default"
  | DeleteDeployment ns name opts =>
      String.eqb ns "default" && String.eqb name "event-count-issue-reproducer"
      && isForeground opts
  | Sleep seconds => Z.eqb seconds 1
  end.

(** A statement only adds actions, and all of them pass [P]. *)
Definition adds {A : Type} (P : Action -> bool) (c : M A) : Prop :=
  forall t : Trace, exists rest : Trace, traceOf (c t) = t ++ rest /\ forallb P rest = true.

(** A statement completes, having added only actions that pass [P]. *)
Definition completes (P : Action -> bool) (c : M unit) : Prop :=
  forall t : Trace, exists rest : Trace, c t = Continue tt (t ++ rest) /\ forallb P rest = true.



Definition isPodEvent (ev : eventsv1.Event) : bool :=
  String.eqb (apiv1.Kind (eventsv1.Regarding ev)) "Pod".

Definition plainName (p : apiv1.Pod) : bool :=
  negb (fields.ContainsSpecial (apiv1.Pod_Name p)).

Definition selectorFor (p : apiv1.Pod) : string :=
  ("regarding.name=" ++ apiv1.Pod_Name p)%string.

(** A control plane on which no call made by the loop fails: listings
    return a list and no error, and pod names have no backslash, comma or
    equals sign. *)
Definition answering (cp : ControlPlane) : Prop :=
  (forall t ns opts, exists l,
      Pods_List cp t ns opts = (Some l, None)
      /\ forallb plainName (apiv1.Pod_Items l) = true)
  /\ (forall t ns opts, exists l, Events_List cp t ns opts = (Some l, None)).

(** The control plane cannot be reached: every call fails. *)
Definition unreachable : ControlPlane :=
  {| clientsetError := None;
     Deployments_Create := fun _ _ _ => (Some zeroDeployment, Some "connection refused");
     Pods_List := fun _ _ _ => (pods [], Some "connection refused");
     Events_List := fun _ _ _ => (events [], Some "connection refused");
     Deployments_Delete := fun _ _ _ _ => Some "connection refused" |}.

End Behaviour.

(* ------------------------------------------------------------------ *)
(** ** Properties of the formatting functions *)
(* ------------------------------------------------------------------ *)

Module FmtFacts.

Import Fmt.

Lemma append_assoc (a b c : string) : ((a ++ b) ++ c = a ++ (b ++ c))%string.
Proof.
  induction a as [|x a IH]; simpl; [reflexivity | now rewrite IH].
Qed.

Lemma append_nil_r (a : string) : (a ++ "" = a)%string.
Proof.
  induction a as [|x a IH]; simpl; [reflexivity | now rewrite IH].
Qed.

(** The digits printed by [%d] read back as the number printed. *)
Lemma fmt_d_reads_back (n : Z) :
  option_map Z.of_int (NilZero.int_of_string (fmt_d n)) = Some n.
Proof.
  unfold fmt_d.
  rewrite NilZero.isi.
  - simpl. now rewrite DecimalZ.of_to.
  - destruct n; simpl; try discriminate.
    intros [= H]. now apply DecimalPos.Unsigned.to_uint_nonnil in H.
  - destruct n; simpl; try discriminate.
    intros [= H]. now apply DecimalPos.Unsigned.to_uint_nonnil in H.
Qed.

(** A negative number prints as a minus sign and its absolute value. *)
Lemma fmt_d_negative (n : Z) :
  (n < 0)%Z -> fmt_d n = String "-" (fmt_d (- n)).
Proof.
  destruct n as [|p|p]; try lia. intros _. reflexivity.
Qed.

Example fmt_d_samples :
  fmt_d 0 = "0" /\ fmt_d 5 = "5" /\ fmt_d (-3) = "-3" /\ fmt_d 2147483647 = "2147483647".
Proof. repeat split. Qed.

End FmtFacts.

(* ------------------------------------------------------------------ *)
(** ** Properties of main.go *)
(* ------------------------------------------------------------------ *)

Module ReproducerFacts.

Import Fmt Reproducer Scenarios.

Local Open Scope go_scope.

(** *** The classifier *)

(** An event about something that is not a pod is skipped. *)
Lemma classifyEvent_skip (p : apiv1.Pod) (ev : eventsv1.Event) (t : Trace) :
  String.eqb (apiv1.Kind (eventsv1.Regarding ev)) "Pod" = false ->
  classifyEvent p ev t = Continue tt t.
Proof.
  intros H. unfold classifyEvent. now rewrite H.
Qed.

(** The test on the counter is equality with zero: any other value, of
    either sign, takes the second branch. *)
Lemma classifyEvent_nonzero_count (p : apiv1.Pod) (ev : eventsv1.Event) (t : Trace) :
  apiv1.Kind (eventsv1.Regarding ev) = "Pod" ->
  eventsv1.DeprecatedCount ev <> 0%Z ->
  classifyEvent p ev t =
  Continue tt
    (t ++ [Stdout ("Issue is no longer occuring - Event count is "
                   ++ fmt_d (eventsv1.DeprecatedCount ev)
                   ++ "  for pod " ++ apiv1.Pod_Name p ++ " " ++ LF)%string]).
Proof.
  intros Hkind Hcount. unfold classifyEvent.
  rewrite Hkind. simpl negb. cbv iota.
  apply Z.eqb_neq in Hcount. rewrite Hcount.
  unfold Printf, emit. do 3 f_equal.
  reflexivity.
Qed.

(** C1. For an event about a pod whose counter is 0 the classifier prints one
    line, "Issue is occuring - Event count is 0 for pod <name>. ", and when the
    event has no series the same line continues with "Event series is also
    nil". *)
Theorem classifyEvent_zero_count (p : apiv1.Pod) (ev : eventsv1.Event) (t : Trace) :
  apiv1.Kind (eventsv1.Regarding ev) = "Pod" ->
  eventsv1.DeprecatedCount ev = 0%Z ->
  classifyEvent p ev t =
  Continue tt
    (t ++ [Stdout ("Issue is occuring - Event count is 0 for pod "
                   ++ apiv1.Pod_Name p ++ ". "
                   ++ match eventsv1.Series ev with
                      | None => "Event series is also nil"
                      | Some _ => ""
                      end
                   ++ LF)%string]).
Proof.
  intros Hkind Hcount. unfold classifyEvent.
  rewrite Hkind, Hcount. simpl negb. cbv iota.
  unfold Println, emit. do 3 f_equal.
  destruct (eventsv1.Series ev); cbn; rewrite ?FmtFacts.append_assoc; reflexivity.
Qed.

Lemma classifyEvent_zero_count_witness :
  classifyEvent (pod "web-1") (podEvent "web-1" 0 None) [] =
  Continue tt
    [Stdout ("Issue is occuring - Event count is 0 for pod web-1. Event series is also nil" ++ LF)%string].
Proof.
  apply (classifyEvent_zero_count (pod "web-1") (podEvent "web-1" 0 None) []); reflexivity.
Defined.

(** C5. For an event about a pod whose counter is greater than 0 the
    classifier prints "Issue is no longer occuring - Event count is <count>
    for pod <name>", where <count> is the counter in decimal: its digits read
    back as the counter. *)
Theorem classifyEvent_positive_count (p : apiv1.Pod) (ev : eventsv1.Event) (t : Trace) :
  apiv1.Kind (eventsv1.Regarding ev) = "Pod" ->
  (0 < eventsv1.DeprecatedCount ev)%Z ->
  classifyEvent p ev t =
  Continue tt
    (t ++ [Stdout ("Issue is no longer occuring - Event count is "
                   ++ fmt_d (eventsv1.DeprecatedCount ev)
                   ++ "  for pod " ++ apiv1.Pod_Name p ++ " " ++ LF)%string])
  /\ option_map Z.of_int (NilZero.int_of_string (fmt_d (eventsv1.DeprecatedCount ev)))
     = Some (eventsv1.DeprecatedCount ev).
Proof.
  intros Hkind Hcount. split.
  - apply classifyEvent_nonzero_count; [assumption | lia].
  - apply FmtFacts.fmt_d_reads_back.
Qed.

Lemma classifyEvent_positive_count_witness :
  classifyEvent (pod "web-1") (podEvent "web-1" 5 None) [] =
  Continue tt [Stdout ("Issue is no longer occuring - Event count is 5  for pod web-1 " ++ LF)%string].
Proof.
  apply (classifyEvent_positive_count (pod "web-1") (podEvent "web-1" 5 None) []);
    [reflexivity | simpl; lia].
Defined.

(** C6. An event whose subject kind is not "Pod" makes the classifier print
    nothing, whatever its counter and its series. *)
Theorem classifyEvent_not_pod (p : apiv1.Pod) (ev : eventsv1.Event) (t : Trace) :
  apiv1.Kind (eventsv1.Regarding ev) <> "Pod" ->
  classifyEvent p ev t = Continue tt t.
Proof.
  intros Hkind. apply classifyEvent_skip. now apply String.eqb_neq.
Qed.

Lemma classifyEvent_not_pod_witness :
  classifyEvent (pod "web-1") (nodeEvent "node-1" 0) [] = Continue tt [].
Proof.
  apply (classifyEvent_not_pod (pod "web-1") (nodeEvent "node-1" 0) []).
  simpl. discriminate.
Defined.

(** C10. For an event about a pod whose counter is negative the classifier
    takes the second branch and prints "Issue is no longer occuring - Event
    count is -<digits>  for pod <name>", with the digits of the absolute
    value. *)
Theorem classifyEvent_negative_count (p : apiv1.Pod) (ev : eventsv1.Event) (t : Trace) :
  apiv1.Kind (eventsv1.Regarding ev) = "Pod" ->
  (eventsv1.DeprecatedCount ev < 0)%Z ->
  classifyEvent p ev t =
  Continue tt
    (t ++ [Stdout ("Issue is no longer occuring - Event count is -"
                   ++ fmt_d (- eventsv1.DeprecatedCount ev)
                   ++ "  for pod " ++ apiv1.Pod_Name p ++ " " ++ LF)%string]).
Proof.
  intros Hkind Hcount.
  rewrite classifyEvent_nonzero_count by (assumption || lia).
  now rewrite FmtFacts.fmt_d_negative by assumption.
Qed.

Lemma classifyEvent_negative_count_witness :
  classifyEvent (pod "web-1") (podEvent "web-1" (-3) None) [] =
  Continue tt [Stdout ("Issue is no longer occuring - Event count is -3  for pod web-1 " ++ LF)%string].
Proof.
  apply (classifyEvent_negative_count (pod "web-1") (podEvent "web-1" (-3) None) []);
    [reflexivity | simpl; lia].
Defined.

(** *** The workload *)

(** C8. The Deployment submitted is named "event-count-issue-reproducer",
    asks for 2 replicas and has one container, of image "nginx:1.12", with
    the TCP port 80 named "http", requests of 500m CPU and 32Gi memory and
    limits of 2000m CPU and 64Gi memory. *)
Theorem deployment_fixed_spec :
  metav1.Name (appsv1.ObjectMeta deployment) = "event-count-issue-reproducer"
  /\ appsv1.Replicas (appsv1.Spec deployment) = Some 2%Z
  /\ exists c : apiv1.Container,
       apiv1.Containers (apiv1.Template_Spec (appsv1.Template (appsv1.Spec deployment))) = [c]
       /\ apiv1.Image c = "nginx:1.12"
       /\ apiv1.Ports c =
            [ {| apiv1.Port_Name := "http";
                 apiv1.Port_Protocol := apiv1.ProtocolTCP;
                 apiv1.Port_ContainerPort := 80 |} ]
       /\ apiv1.lookup (apiv1.Requests (apiv1.Resources c)) apiv1.ResourceCPU
          = Some (resource.MustParse "500m")
       /\ apiv1.lookup (apiv1.Requests (apiv1.Resources c)) apiv1.ResourceMemory
          = Some (resource.MustParse "32Gi")
       /\ apiv1.lookup (apiv1.Limits (apiv1.Resources c)) apiv1.ResourceCPU
          = Some (resource.MustParse "2000m")
       /\ apiv1.lookup (apiv1.Limits (apiv1.Resources c)) apiv1.ResourceMemory
          = Some (resource.MustParse "64Gi").
Proof.
  split; [reflexivity | split; [reflexivity | ]].
  eexists. split; [reflexivity | ]. repeat split.
Qed.

(** *** Statements only add to the trace *)

Create HintDb extends discriminated.

Lemma extends_ret {A : Type} (a : A) : extends (ret a).
Proof. intros t. exists []. simpl. now rewrite app_nil_r. Qed.

Lemma extends_emit (a : Action) : extends (emit a).
Proof. intros t. now exists [a]. Qed.

Lemma extends_panic {A : Type} (v : string) : extends (@panic A v).
Proof. intros t. exists []. simpl. now rewrite app_nil_r. Qed.

Lemma extends_os_Exit {A : Type} (code : Z) : extends (@os_Exit A code).
Proof. intros t. exists []. simpl. now rewrite app_nil_r. Qed.

Lemma extends_bind {A B : Type} (c : M A) (k : A -> M B) :
  extends c -> (forall a, extends (k a)) -> extends (bind c k).
Proof.
  intros Hc Hk t. unfold bind.
  destruct (Hc t) as [r1 H1].
  destruct (c t) as [a t1 | e t1 | t1]; simpl in H1; subst t1.
  - destruct (Hk a (t ++ r1)) as [r2 H2].
    exists (r1 ++ r2). now rewrite H2, app_assoc.
  - now exists r1.
  - now exists r1.
Qed.

Lemma extends_deref {A : Type} (p : option A) : extends (deref p).
Proof. destruct p; [apply extends_ret | apply extends_panic]. Qed.

Lemma extends_Println (s : string) : extends (Println s).
Proof. apply extends_emit. Qed.

Lemma extends_Printf (format : string) (args : list Arg) : extends (Printf format args).
Proof. apply extends_emit. Qed.

Lemma extends_ifErr (err : option error) (body : error -> M unit) :
  (forall e, extends (body e)) -> extends (ifErr err body).
Proof. intros H. destruct err; [apply H | apply extends_ret]. Qed.

Lemma extends_forRange {A : Type} (l : list A) (body : A -> M unit) :
  (forall x, extends (body x)) -> extends (forRange l body).
Proof.
  intros H. induction l as [|x l IH]; simpl.
  - apply extends_ret.
  - apply extends_bind; [apply H | intros _; exact IH].
Qed.

Lemma extends_classifyEvent (p : apiv1.Pod) (ev : eventsv1.Event) :
  extends (classifyEvent p ev).
Proof.
  unfold classifyEvent.
  destruct (negb _); [apply extends_ret | ].
  destruct (Z.eqb _ _); [apply extends_Println | apply extends_Printf].
Qed.

#[local] Hint Resolve extends_ret extends_emit extends_panic extends_os_Exit
  extends_deref extends_Println extends_Printf extends_classifyEvent : extends.
#[local] Hint Extern 2 (extends (bind _ _)) => apply extends_bind; [ | intros ] : extends.
#[local] Hint Extern 2 (extends (ifErr _ _)) => apply extends_ifErr; intros : extends.
#[local] Hint Extern 2 (extends (forRange _ _)) => apply extends_forRange; intros : extends.

Section Extends.

Variable cp : ControlPlane.

Lemma extends_Delete (c : DeploymentInterface) (name : string) (opts : metav1.DeleteOptions) :
  extends (Delete cp c name opts).
Proof. intros t. now eexists. Qed.

Lemma extends_EventsList (ns : string) (opts : metav1.ListOptions) :
  extends (EventsList cp ns opts).
Proof. intros t. now eexists. Qed.

Lemma extends_PodsList (ns : string) (opts : metav1.ListOptions) :
  extends (PodsList cp ns opts).
Proof. intros t. now eexists. Qed.

Lemma extends_cleanupAndExit (c : DeploymentInterface) : extends (cleanupAndExit cp c).
Proof.
  unfold cleanupAndExit, deleteDeployment.
  apply extends_bind; [ | intros; apply extends_Println].
  apply extends_bind; [apply extends_Println | intros _].
  apply extends_bind; [apply extends_Delete | intros [e|]];
    [apply extends_panic | apply extends_Println].
Qed.

End Extends.

#[local] Hint Resolve extends_Delete extends_EventsList extends_PodsList
  extends_cleanupAndExit : extends.

(** *** The field selector *)

Lemma special_false (c : ascii) :
  fields.special c = false ->
  fields.isBackslash c = false /\ fields.isComma c = false /\ fields.isEquals c = false.
Proof.
  unfold fields.special. intros H.
  apply orb_false_elim in H as [H H3]. apply orb_false_elim in H as [H1 H2].
  now repeat split.
Qed.

Lemma EscapeValue_plain (s : string) :
  fields.ContainsSpecial s = false -> fields.EscapeValue s = s.
Proof.
  induction s as [|c s IH]; simpl; [reflexivity | ].
  intros H. apply orb_false_elim in H as [Hc Hs].
  now rewrite Hc, IH.
Qed.

Lemma UnescapeValue_plain (s : string) :
  fields.ContainsSpecial s = false -> fields.UnescapeValue s = inl s.
Proof. intros H. unfold fields.UnescapeValue. now rewrite H. Qed.

Lemma splitFrom_plain (s : string) :
  fields.ContainsSpecial s = false -> fields.splitFrom false s = (s, []).
Proof.
  induction s as [|c s IH]; simpl; [reflexivity | ].
  intros H. apply orb_false_elim in H as [Hc Hs].
  apply special_false in Hc as (Hb & Hcomma & _).
  now rewrite Hb, Hcomma, IH.
Qed.

Lemma splitTerm_regarding_name (name : string) :
  fields.ContainsSpecial name = false ->
  fields.splitTerm ("regarding.name=" ++ name) = Some ("regarding.name", "=", name).
Proof.
  destruct name as [|c s]; [reflexivity | ].
  intros H. simpl in H. apply orb_false_elim in H as [Hc _].
  apply special_false in Hc as (_ & _ & He).
  unfold fields.isEquals in He. rewrite Ascii.eqb_sym in He.
  cbn -[Ascii.eqb]. now rewrite He.
Qed.

Lemma splitTerms_regarding_name (name : string) :
  fields.ContainsSpecial name = false ->
  fields.splitTerms ("regarding.name=" ++ name) = [("regarding.name=" ++ name)%string].
Proof.
  intros H. cbn. now rewrite splitFrom_plain.
Qed.

(** A name without backslash, comma or equals sign parses to one term and
    prints back as it was written. *)
Lemma ParseSelector_regarding_name (name : string) :
  fields.ContainsSpecial name = false ->
  fields.ParseSelector ("regarding.name=" ++ name)
  = (Some (fields.hasTerm "regarding.name" name), None).
Proof.
  intros H. unfold fields.ParseSelector.
  rewrite splitTerms_regarding_name by assumption.
  unfold fields.sortStrings, fold_right, fields.insertSorted, fields.parseTerms.
  rewrite splitTerm_regarding_name by assumption.
  rewrite UnescapeValue_plain by assumption.
  reflexivity.
Qed.

Lemma Sprintf_regarding_name (name : string) :
  Sprintf "regarding.name=%s" [ArgStr name] = ("regarding.name=" ++ name)%string.
Proof. cbn. now rewrite FmtFacts.append_nil_r. Qed.

(** C7. For a pod whose name has no backslash, comma or equals sign, the
    selector built from "regarding.name=<name>" parses without error, prints
    back as exactly "regarding.name=<name>", and that string is the field
    selector of the event query made for the pod. *)
Theorem podEvents_field_selector (cp : ControlPlane) (c : DeploymentInterface)
        (ns : string) (p : apiv1.Pod) (t : Trace) :
  fields.ContainsSpecial (apiv1.Pod_Name p) = false ->
  exists sel : fields.Selector,
    fields.ParseSelector (Sprintf "regarding.name=%s" [ArgStr (apiv1.Pod_Name p)])
    = (Some sel, None)
    /\ fields.Selector_String sel = ("regarding.name=" ++ apiv1.Pod_Name p)%string
    /\ exists rest : Trace,
         traceOf (podEvents cp c ns p t)
         = t ++ ListEvents ns
                   {| metav1.FieldSelector := ("regarding.name=" ++ apiv1.Pod_Name p)%string |}
                :: rest.
Proof.
  intros H.
  assert (Hstr : fields.Selector_String (fields.hasTerm "regarding.name" (apiv1.Pod_Name p))
                 = ("regarding.name=" ++ apiv1.Pod_Name p)%string).
  { simpl. now rewrite EscapeValue_plain. }
  exists (fields.hasTerm "regarding.name" (apiv1.Pod_Name p)).
  rewrite Sprintf_regarding_name.
  split; [now apply ParseSelector_regarding_name | split; [exact Hstr | ]].
  unfold podEvents.
  rewrite Sprintf_regarding_name, ParseSelector_regarding_name by assumption.
  cbv beta iota zeta.
  unfold bind at 1. simpl (ifErr _ _). unfold ret at 1. cbv beta iota.
  unfold bind at 1. simpl (deref _). unfold ret at 1. cbv beta iota.
  rewrite Hstr.
  unfold bind at 1, EventsList at 1. cbv beta iota.
  destruct (Events_List cp t ns _) as [evs err].
  match goal with
  | |- exists rest, traceOf (?k (?t0 ++ [?a])) = _ =>
      assert (Hk : extends k) by auto 8 with extends;
      destruct (Hk (t0 ++ [a])) as [rest Hrest]
  end.
  exists rest. rewrite Hrest. now rewrite <- app_assoc.
Qed.

Lemma podEvents_field_selector_witness :
  exists sel : fields.Selector,
    fields.ParseSelector (Sprintf "regarding.name=%s" [ArgStr "web-1"]) = (Some sel, None)
    /\ fields.Selector_String sel = "regarding.name=web-1"
    /\ exists rest : Trace,
         traceOf (podEvents (onePodOneEvent (podEvent "web-1" 0 None)) "default" "default"
                            (pod "web-1") [])
         = [] ++ ListEvents "default" {| metav1.FieldSelector := "regarding.name=web-1" |} :: rest.
Proof.
  apply (podEvents_field_selector (onePodOneEvent (podEvent "web-1" 0 None))
                                  "default" "default" (pod "web-1") []).
  reflexivity.
Defined.

(** *** Teardown *)

(** What [cleanupAndExit] does, for any control plane: one delete call, by
    the fixed name and with foreground propagation; a panic when the call
    fails; otherwise two more lines and a normal return to the caller. *)
Lemma cleanupAndExit_spec (cp : ControlPlane) (c : DeploymentInterface) (t : Trace) :
  cleanupAndExit cp c t =
  match Deployments_Delete cp (t ++ [Stdout ("Deleting deployment..." ++ LF)%string])
                           c deploymentName foreground with
  | Some e =>
      Stop (Panic e)
           (t ++ [Stdout ("Deleting deployment..." ++ LF)%string;
                  DeleteDeployment c deploymentName foreground])
  | None =>
      Continue tt
           (t ++ [Stdout ("Deleting deployment..." ++ LF)%string;
                  DeleteDeployment c deploymentName foreground;
                  Stdout ("Deleted deployment." ++ LF)%string;
                  Stdout ("Exiting." ++ LF)%string])
  end.
Proof.
  unfold cleanupAndExit, deleteDeployment, bind, Println, emit, Delete, foreground.
  destruct (Deployments_Delete cp _ c deploymentName _) as [e|]; simpl;
    now rewrite <- ?app_assoc.
Qed.

(** The interrupt watcher ends the process in both cases, after one delete
    call. *)
Lemma interruptWatcher_spec (cp : ControlPlane) (c : DeploymentInterface) (t : Trace) :
  interruptWatcher cp c t =
  match Deployments_Delete cp (t ++ [Stdout ("Deleting deployment..." ++ LF)%string])
                           c deploymentName foreground with
  | Some e =>
      Stop (Panic e)
           (t ++ [Stdout ("Deleting deployment..." ++ LF)%string;
                  DeleteDeployment c deploymentName foreground])
  | None =>
      Stop (Exit 0)
           (t ++ [Stdout ("Deleting deployment..." ++ LF)%string;
                  DeleteDeployment c deploymentName foreground;
                  Stdout ("Deleted deployment." ++ LF)%string;
                  Stdout ("Exiting." ++ LF)%string])
  end.
Proof.
  unfold interruptWatcher, bind at 1. rewrite cleanupAndExit_spec.
  now destruct (Deployments_Delete cp _ c deploymentName _).
Qed.

Lemma interruptWatcher_teardown_once (cp : ControlPlane) (c : DeploymentInterface) (t : Trace) :
  exists (e : Termination) (rest : Trace),
    interruptWatcher cp c t = Stop e (t ++ rest) /\ teardownCount rest = 1.
Proof.
  rewrite interruptWatcher_spec.
  destruct (Deployments_Delete cp _ c deploymentName _) as [e|];
    eexists; eexists; split; reflexivity.
Qed.

(** *** Runs of main *)

Lemma pollLoop_nameTaken (turns : nat) (t : Trace) :
  exists rest : Trace,
    pollLoop nameTaken turns "default" "default" t = Polling (t ++ rest).
Proof.
  revert t. induction turns as [|n IH]; intros t.
  - exists []. simpl. now rewrite app_nil_r.
  - destruct (IH (t ++ [ListPods "default" {| metav1.FieldSelector := "" |}; Sleep 1]))
      as [rest Hrest].
    exists ([ListPods "default" {| metav1.FieldSelector := "" |}; Sleep 1] ++ rest).
    rewrite app_assoc, <- Hrest.
    simpl pollLoop. unfold bind at 1.
    replace (pollOnce nameTaken "default" "default" t)
      with (@Continue unit tt (t ++ [ListPods "default" {| metav1.FieldSelector := "" |}; Sleep 1])).
    + reflexivity.
    + unfold pollOnce, bind, PodsList, time_Sleep, emit. simpl.
      now rewrite <- app_assoc.
Qed.

(** C2. Against a control plane that refuses the creation and accepts the
    deletion, main prints the error and runs the teardown, and then does not
    exit: it prints the "Created deployment" line and polls, for as many
    turns as it is given. *)
Theorem create_error_keeps_polling (turns : nat) :
  exists rest : Trace,
    main nameTaken turns [] =
    Polling ([ Stdout ("Creating deployment..." ++ LF)%string;
               CreateDeployment "default" deployment;
               Stdout "Error creating deployment: already exists";
               Stdout ("Deleting deployment..." ++ LF)%string;
               DeleteDeployment "default" "event-count-issue-reproducer" foreground;
               Stdout ("Deleted deployment." ++ LF)%string;
               Stdout ("Exiting." ++ LF)%string;
               Stdout ("Created deployment " ++ fmt_q "" ++ "." ++ LF)%string ] ++ rest).
Proof.
  match goal with
  | |- exists rest, _ = Polling (?prefix ++ rest) =>
      destruct (pollLoop_nameTaken turns prefix) as [rest Hrest]
  end.
  exists rest. exact Hrest.
Qed.

(** C3. Against a control plane whose first listing of pods fails, main
    reports the error and runs the teardown, then sleeps and runs a second
    turn of the loop; against one whose event query fails for the first of two
    pods, main goes on to query and classify the second pod in the same
    turn. *)
Theorem poll_error_keeps_polling :
  main listingFailsOnce 2 [] =
  Polling [ Stdout ("Creating deployment..." ++ LF)%string;
            CreateDeployment "default" deployment;
            Stdout ("Created deployment " ++ fmt_q "event-count-issue-reproducer" ++ "." ++ LF)%string;
            ListPods "default" {| metav1.FieldSelector := "" |};
            Stdout "Error listing pods: request timed out";
            Stdout ("Deleting deployment..." ++ LF)%string;
            DeleteDeployment "default" "event-count-issue-reproducer" foreground;
            Stdout ("Deleted deployment." ++ LF)%string;
            Stdout ("Exiting." ++ LF)%string;
            Sleep 1;
            ListPods "default" {| metav1.FieldSelector := "" |};
            ListEvents "default" {| metav1.FieldSelector := "regarding.name=web-1" |};
            Stdout ("Issue is occuring - Event count is 0 for pod web-1. Event series is also nil" ++ LF)%string;
            Sleep 1 ]
  /\
  main eventQueryFails 1 [] =
  Polling [ Stdout ("Creating deployment..." ++ LF)%string;
            CreateDeployment "default" deployment;
            Stdout ("Created deployment " ++ fmt_q "event-count-issue-reproducer" ++ "." ++ LF)%string;
            ListPods "default" {| metav1.FieldSelector := "" |};
            ListEvents "default" {| metav1.FieldSelector := "regarding.name=web-1" |};
            Stdout "failed to get events: request timed out";
            Stdout ("Deleting deployment..." ++ LF)%string;
            DeleteDeployment "default" "event-count-issue-reproducer" foreground;
            Stdout ("Deleted deployment." ++ LF)%string;
            Stdout ("Exiting." ++ LF)%string;
            ListEvents "default" {| metav1.FieldSelector := "regarding.name=web-2" |};
            Stdout ("Issue is no longer occuring - Event count is 5  for pod web-2 " ++ LF)%string;
            Sleep 1 ].
Proof.
  split; vm_compute; reflexivity.
Qed.

(** A selector that does not parse is the one error after which the process
    does end, though by a nil dereference: the teardown returns, and the
    String method is called on the nil selector. *)
Example selector_error_panics :
  main oddPodName 1 [] =
  Stop (Panic nilDereference)
       [ Stdout ("Creating deployment..." ++ LF)%string;
         CreateDeployment "default" deployment;
         Stdout ("Created deployment " ++ fmt_q "event-count-issue-reproducer" ++ "." ++ LF)%string;
         ListPods "default" {| metav1.FieldSelector := "" |};
         Stdout "failed to parse field selector: invalid selector: 'regarding.name=a,b'; can't understand 'b'";
         Stdout ("Deleting deployment..." ++ LF)%string;
         DeleteDeployment "default" "event-count-issue-reproducer" foreground;
         Stdout ("Deleted deployment." ++ LF)%string;
         Stdout ("Exiting." ++ LF)%string ].
Proof. vm_compute. reflexivity. Qed.

(** C4. Where the deletion succeeds, the teardown makes one delete call, by
    the fixed name and with foreground propagation, prints its confirmation
    and "Exiting.", and returns; main, its caller after a failed listing,
    then sleeps instead of ending the process. *)
Theorem teardown_returns_to_main :
  cleanupAndExit listingFailsOnce "default" [] =
  Continue tt [ Stdout ("Deleting deployment..." ++ LF)%string;
                DeleteDeployment "default" "event-count-issue-reproducer"
                  {| metav1.PropagationPolicy := Some metav1.DeletePropagationForeground |};
                Stdout ("Deleted deployment." ++ LF)%string;
                Stdout ("Exiting." ++ LF)%string ]
  /\
  main listingFailsOnce 1 [] =
  Polling [ Stdout ("Creating deployment..." ++ LF)%string;
            CreateDeployment "default" deployment;
            Stdout ("Created deployment " ++ fmt_q "event-count-issue-reproducer" ++ "." ++ LF)%string;
            ListPods "default" {| metav1.FieldSelector := "" |};
            Stdout "Error listing pods: request timed out";
            Stdout ("Deleting deployment..." ++ LF)%string;
            DeleteDeployment "default" "event-count-issue-reproducer" foreground;
            Stdout ("Deleted deployment." ++ LF)%string;
            Stdout ("Exiting." ++ LF)%string;
            Sleep 1 ].
Proof.
  split; vm_compute; reflexivity.
Qed.

(** C9. Against a control plane that refuses every listing of pods, and that
    deletes the Deployment once and does not find it afterwards, the first
    loop error is not the end of the run: the teardown runs in the first turn
    and again in the second, where its panic ends the process.  Two delete
    calls are made before the process terminates. *)
Theorem teardown_runs_twice (turns : nat) :
  let t :=
    [ Stdout ("Creating deployment..." ++ LF)%string;
      CreateDeployment "default" deployment;
      Stdout ("Created deployment " ++ fmt_q "event-count-issue-reproducer" ++ "." ++ LF)%string;
      ListPods "default" {| metav1.FieldSelector := "" |};
      Stdout "Error listing pods: forbidden";
      Stdout ("Deleting deployment..." ++ LF)%string;
      DeleteDeployment "default" "event-count-issue-reproducer" foreground;
      Stdout ("Deleted deployment." ++ LF)%string;
      Stdout ("Exiting." ++ LF)%string;
      Sleep 1;
      ListPods "default" {| metav1.FieldSelector := "" |};
      Stdout "Error listing pods: forbidden";
      Stdout ("Deleting deployment..." ++ LF)%string;
      DeleteDeployment "default" "event-count-issue-reproducer" foreground ] in
  main listingForbidden (2 + turns) [] = Stop (Panic "not found") t
  /\ teardownCount t = 2.
Proof.
  split; reflexivity.
Qed.

(** *** The end-to-end scenarios of the specification *)

Example scenario_count_zero_no_series :
  main (onePodOneEvent (podEvent "web-1" 0 None)) 1 [] =
  Polling [ Stdout ("Creating deployment..." ++ LF)%string;
            CreateDeployment "default" deployment;
            Stdout ("Created deployment " ++ fmt_q "event-count-issue-reproducer" ++ "." ++ LF)%string;
            ListPods "default" {| metav1.FieldSelector := "" |};
            ListEvents "default" {| metav1.FieldSelector := "regarding.name=web-1" |};
            Stdout ("Issue is occuring - Event count is 0 for pod web-1. Event series is also nil" ++ LF)%string;
            Sleep 1 ].
Proof. vm_compute. reflexivity. Qed.

Example scenario_count_five :
  main (onePodOneEvent (podEvent "web-1" 5 None)) 1 [] =
  Polling [ Stdout ("Creating deployment..." ++ LF)%string;
            CreateDeployment "default" deployment;
            Stdout ("Created deployment " ++ fmt_q "event-count-issue-reproducer" ++ "." ++ LF)%string;
            ListPods "default" {| metav1.FieldSelector := "" |};
            ListEvents "default" {| metav1.FieldSelector := "regarding.name=web-1" |};
            Stdout ("Issue is no longer occuring - Event count is 5  for pod web-1 " ++ LF)%string;
            Sleep 1 ].
Proof. vm_compute. reflexivity. Qed.

End ReproducerFacts.

(* ------------------------------------------------------------------ *)
(** ** Properties of whole runs *)
(* ------------------------------------------------------------------ *)

Module RunFacts.

Import Fmt Reproducer Scenarios Behaviour.

Local Open Scope go_scope.

(** *** What a statement adds to the trace *)

Section Adds.

Variable P : Action -> bool.
Hypothesis P_Stdout : forall s, P (Stdout s) = true.

Lemma adds_nothing {A : Type} (c : M A) :
  (forall t, traceOf (c t) = t) -> adds P c.
Proof.
  intros H t. exists []. rewrite H, app_nil_r. now split.
Qed.

Lemma adds_ret {A : Type} (a : A) : adds P (ret a).
Proof. now apply adds_nothing. Qed.

Lemma adds_panic {A : Type} (v : string) : adds P (@panic A v).
Proof. now apply adds_nothing. Qed.

Lemma adds_os_Exit {A : Type} (code : Z) : adds P (@os_Exit A code).
Proof. now apply adds_nothing. Qed.

Lemma adds_emit (a : Action) : P a = true -> adds P (emit a).
Proof.
  intros H t. exists [a]. split; [reflexivity | ]. simpl. now rewrite H.
Qed.

Lemma adds_bind {A B : Type} (c : M A) (k : A -> M B) :
  adds P c -> (forall a, adds P (k a)) -> adds P (bind c k).
Proof.
  intros Hc Hk t. unfold bind.
  destruct (Hc t) as (r1 & H1 & P1).
  destruct (c t) as [a t1 | e t1 | t1]; simpl in H1; subst t1.
  - destruct (Hk a (t ++ r1)) as (r2 & H2 & P2).
    exists (r1 ++ r2). rewrite H2, app_assoc, forallb_app, P1, P2. now split.
  - now exists r1.
  - now exists r1.
Qed.

Lemma adds_deref {A : Type} (p : option A) : adds P (deref p).
Proof. destruct p; [apply adds_ret | apply adds_panic]. Qed.

Lemma adds_Println (s : string) : adds P (Println s).
Proof. apply adds_emit, P_Stdout. Qed.

Lemma adds_Printf (format : string) (args : list Arg) : adds P (Printf format args).
Proof. apply adds_emit, P_Stdout. Qed.

Lemma adds_ifErr (err : option error) (body : error -> M unit) :
  (forall e, adds P (body e)) -> adds P (ifErr err body).
Proof. intros H. destruct err; [apply H | apply adds_ret]. Qed.

Lemma adds_forRange {A : Type} (l : list A) (body : A -> M unit) :
  (forall x, adds P (body x)) -> adds P (forRange l body).
Proof.
  intros H. induction l as [|x l IH]; simpl.
  - apply adds_ret.
  - apply adds_bind; [apply H | intros _; exact IH].
Qed.

Lemma adds_classifyEvent (p : apiv1.Pod) (ev : eventsv1.Event) :
  adds P (classifyEvent p ev).
Proof.
  unfold classifyEvent.
  destruct (negb _); [apply adds_ret | ].
  destruct (Z.eqb _ _); [apply adds_Println | apply adds_Printf].
Qed.

Variable cp : ControlPlane.

Hypothesis P_Delete : P (DeleteDeployment "default" deploymentName foreground) = true.
Hypothesis P_ListPods : P (ListPods "default" {| metav1.FieldSelector := "" |}) = true.
Hypothesis P_ListEvents :
  forall sel, P (ListEvents "default" {| metav1.FieldSelector := sel |}) = true.
Hypothesis P_Sleep : P (Sleep 1) = true.

Lemma adds_call {A : Type} (answer : Trace -> A) (a : Action) :
  P a = true -> adds P (fun t => Continue (answer t) (t ++ [a])).
Proof.
  intros H t. exists [a]. split; [reflexivity | ]. simpl. now rewrite H.
Qed.

Lemma adds_cleanupAndExit : adds P (cleanupAndExit cp "default").
Proof.
  unfold cleanupAndExit, deleteDeployment.
  apply adds_bind; [ | intros; apply adds_Println].
  apply adds_bind; [apply adds_Println | intros _].
  apply adds_bind; [apply (adds_call _ _ P_Delete) | intros [e|]];
    [apply adds_panic | apply adds_Println].
Qed.

Lemma adds_podEvents (p : apiv1.Pod) : adds P (podEvents cp "default" "default" p).
Proof.
  unfold podEvents.
  destruct (fields.ParseSelector _) as [selector err].
  apply adds_bind.
  { apply adds_ifErr. intros e.
    apply adds_bind; [apply adds_Printf | intros _; apply adds_cleanupAndExit]. }
  intros _. apply adds_bind; [apply adds_deref | intros sel].
  apply adds_bind; [apply (adds_call _ _ (P_ListEvents _)) | intros [evs err']].
  apply adds_bind.
  { apply adds_ifErr. intros e.
    apply adds_bind; [apply adds_Printf | intros _; apply adds_cleanupAndExit]. }
  intros _. apply adds_bind; [apply adds_deref | intros l].
  apply adds_forRange. intros ev. apply adds_classifyEvent.
Qed.

Lemma adds_pollOnce : adds P (pollOnce cp "default" "default").
Proof.
  unfold pollOnce.
  apply adds_bind; [apply (adds_call _ _ P_ListPods) | intros [podList err]].
  apply adds_bind.
  { apply adds_ifErr. intros e.
    apply adds_bind; [apply adds_Printf | intros _; apply adds_cleanupAndExit]. }
  intros _. apply adds_bind; [apply adds_deref | intros l].
  apply adds_bind; [ | intros _; apply (adds_emit _ P_Sleep)].
  apply adds_forRange. intros p. apply adds_podEvents.
Qed.

Lemma adds_pollLoop (turns : nat) : adds P (pollLoop cp turns "default" "default").
Proof.
  induction turns as [|n IH]; simpl.
  - now apply adds_nothing.
  - apply adds_bind; [apply adds_pollOnce | intros _; exact IH].
Qed.

(** After the create call main only adds actions that pass [P]. *)
Lemma main_after_create (turns : nat) :
  clientsetError cp = None ->
  exists rest : Trace,
    traceOf (main cp turns []) =
    [Stdout ("Creating deployment..." ++ LF)%string; CreateDeployment "default" deployment] ++ rest
    /\ forallb P rest = true.
Proof.
  intros Hboot. unfold main, getClientset. rewrite Hboot.
  unfold bind at 1, ret at 1. cbv beta iota zeta.
  unfold bind at 1, Println at 1, emit at 1. cbv beta iota.
  unfold bind at 1, Create at 1. cbv beta iota.
  destruct (Deployments_Create cp _ _ _) as [result err].
  match goal with
  | |- exists rest, traceOf (?k ?t0) = _ /\ _ =>
      assert (Hk : adds P k)
  end.
  { apply adds_bind.
    { apply adds_ifErr. intros e.
      apply adds_bind; [apply adds_Printf | intros _; apply adds_cleanupAndExit]. }
    intros _. apply adds_bind; [apply adds_deref | intros d].
    apply adds_bind; [apply adds_Printf | intros _; apply adds_pollLoop]. }
  destruct (Hk ([] ++ [Stdout ("Creating deployment..." ++ LF)%string]
                   ++ [CreateDeployment apiv1.NamespaceDefault deployment]))
    as (rest & Hrest & HP).
  exists rest. split; [exact Hrest | exact HP].
Qed.

End Adds.

Lemma main_without_client (cp : ControlPlane) (e : error) (turns : nat) (t : Trace) :
  clientsetError cp = Some e -> main cp turns t = Stop (Panic e) t.
Proof.
  intros H. unfold main, getClientset. rewrite H. reflexivity.
Qed.

Lemma filter_none {A : Type} (f : A -> bool) (l : list A) :
  forallb (fun a => negb (f a)) l = true -> filter f l = [].
Proof.
  induction l as [|a l IH]; simpl; [reflexivity | ].
  intros H. apply andb_prop in H as [Ha Hl].
  apply negb_true_iff in Ha. rewrite Ha. now apply IH.
Qed.

(** X1. Whatever the control plane answers and however many turns are run,
    every action of main is one the program is written to make: calls in the
    default namespace only, pods listed without a filter, deletions of
    "event-count-issue-reproducer" with foreground propagation only, sleeps
    of one second only. *)
Theorem main_makes_expected_calls (cp : ControlPlane) (turns : nat) :
  forallb expected (traceOf (main cp turns [])) = true.
Proof.
  destruct (clientsetError cp) as [e|] eqn:Hboot.
  - now rewrite (main_without_client cp e).
  - destruct (main_after_create expected (fun _ => eq_refl) cp
                eq_refl eq_refl (fun _ => eq_refl) eq_refl turns Hboot)
      as (rest & Hrest & HP).
    rewrite Hrest. simpl. exact HP.
Qed.

(** X2. The Deployment is submitted at most once: the create calls of a run
    of main are the single call for the fixed Deployment in the default
    namespace when the client could be built, and none otherwise; the loop
    never creates anything. *)
Theorem main_creates_once (cp : ControlPlane) (turns : nat) :
  filter isCreate (traceOf (main cp turns [])) =
  match clientsetError cp with
  | None => [CreateDeployment "default" deployment]
  | Some _ => []
  end.
Proof.
  destruct (clientsetError cp) as [e|] eqn:Hboot.
  - now rewrite (main_without_client cp e).
  - destruct (main_after_create notCreate (fun _ => eq_refl) cp
                eq_refl eq_refl (fun _ => eq_refl) eq_refl turns Hboot)
      as (rest & Hrest & HP).
    rewrite Hrest. simpl. f_equal. now apply filter_none.
Qed.

(** *** How statements can end *)














(** *** Teardown and the interrupt watcher *)

(** X4. Once a signal is received the watcher always ends the process, after
    exactly one delete call: with exit status 0 when the deletion succeeded,
    and with a panic carrying the deletion's error when it failed. *)
Theorem interrupt_ends_process (cp : ControlPlane) (c : DeploymentInterface) (t : Trace) :
  exists rest : Trace,
    interruptWatcher cp c t =
    Stop (match Deployments_Delete cp (t ++ [Stdout ("Deleting deployment..." ++ LF)%string])
                                   c deploymentName foreground with
          | None => Exit 0
          | Some e => Panic e
          end) (t ++ rest)
    /\ teardownCount rest = 1.
Proof.
  rewrite ReproducerFacts.interruptWatcher_spec.
  destruct (Deployments_Delete cp _ c deploymentName _) as [e|];
    eexists; split; reflexivity.
Qed.

(** X5. The teardown makes exactly one delete call whatever the outcome, for
    the fixed name, with foreground propagation, in the namespace of the
    client it is given.  It returns to its caller exactly when the deletion
    succeeded, and otherwise panics with the deletion's error; "Exiting." is
    printed only in the first case. *)
Theorem teardown_contract (cp : ControlPlane) (c : DeploymentInterface) (t : Trace) :
  exists rest : Trace,
    traceOf (cleanupAndExit cp c t) = t ++ rest
    /\ filter isDelete rest = [DeleteDeployment c "event-count-issue-reproducer" foreground]
    /\ match Deployments_Delete cp (t ++ [Stdout ("Deleting deployment..." ++ LF)%string])
                                c deploymentName foreground with
       | None =>
           cleanupAndExit cp c t = Continue tt (t ++ rest)
           /\ last rest (Sleep 0) = Stdout ("Exiting." ++ LF)%string
       | Some e =>
           cleanupAndExit cp c t = Stop (Panic e) (t ++ rest)
           /\ last rest (Sleep 0) = DeleteDeployment c "event-count-issue-reproducer" foreground
       end.
Proof.
  rewrite ReproducerFacts.cleanupAndExit_spec.
  destruct (Deployments_Delete cp _ c deploymentName _) as [e|];
    eexists; repeat split.
Qed.

(** *** The classification of a list of events *)

Lemma classifyEvent_lines (p : apiv1.Pod) (ev : eventsv1.Event) (t : Trace) :
  exists lines : list string,
    classifyEvent p ev t = Continue tt (t ++ map Stdout lines)
    /\ List.length lines = if isPodEvent ev then 1 else 0.
Proof.
  unfold classifyEvent, isPodEvent.
  destruct (String.eqb _ "Pod"); simpl.
  - destruct (Z.eqb _ _); eexists [_]; split; reflexivity.
  - exists []. simpl. now rewrite app_nil_r.
Qed.

(** X6. Classifying the events of a pod never fails and never touches the
    control plane: it always completes, and what it adds to the trace is one
    printed line for each event whose subject kind is "Pod", nothing else. *)
Theorem classification_prints_one_line_per_pod_event
        (p : apiv1.Pod) (evs : list eventsv1.Event) (t : Trace) :
  exists lines : list string,
    forRange evs (classifyEvent p) t = Continue tt (t ++ map Stdout lines)
    /\ List.length lines = List.length (filter isPodEvent evs).
Proof.
  revert t. induction evs as [|ev evs IH]; intros t; simpl.
  - exists []. simpl. now rewrite app_nil_r.
  - destruct (classifyEvent_lines p ev t) as (l1 & H1 & N1).
    destruct (IH (t ++ map Stdout l1)) as (l2 & H2 & N2).
    exists (l1 ++ l2). unfold bind. rewrite H1, H2.
    rewrite map_app, app_assoc, length_app, N1, N2.
    split; [reflexivity | ]. now destruct (isPodEvent ev).
Qed.

(** *** Turns of the loop on a control plane that answers *)

Lemma forallb_map_Stdout (P : Action -> bool) (lines : list string) :
  (forall s, P (Stdout s) = true) -> forallb P (map Stdout lines) = true.
Proof.
  intros H. induction lines as [|s l IH]; simpl; [reflexivity | now rewrite H, IH].
Qed.

Lemma eventQueries_app (a b : Trace) :
  eventQueries (a ++ b) = eventQueries a ++ eventQueries b.
Proof. unfold eventQueries. apply flat_map_app. Qed.

Lemma eventQueries_map_Stdout (lines : list string) :
  eventQueries (map Stdout lines) = [].
Proof. induction lines as [|s l IH]; simpl; [reflexivity | exact IH]. Qed.

Lemma forRange_classifyEvent_lines (p : apiv1.Pod) (evs : list eventsv1.Event) (t : Trace) :
  exists lines : list string,
    forRange evs (classifyEvent p) t = Continue tt (t ++ map Stdout lines).
Proof.
  revert t. induction evs as [|ev evs IH]; intros t; simpl.
  - exists []. simpl. now rewrite app_nil_r.
  - destruct (classifyEvent_lines p ev t) as (l1 & H1 & _).
    destruct (IH (t ++ map Stdout l1)) as (l2 & H2).
    exists (l1 ++ l2). unfold bind. rewrite H1, H2.
    now rewrite map_app, app_assoc.
Qed.

Section Answering.

Variable cp : ControlPlane.
Hypothesis Hcp : answering cp.
Variable c : DeploymentInterface.
Variable ns : string.

Lemma podEvents_answering (p : apiv1.Pod) (t : Trace) :
  plainName p = true ->
  exists lines : list string,
    podEvents cp c ns p t =
    Continue tt (t ++ ListEvents ns {| metav1.FieldSelector := selectorFor p |}
                   :: map Stdout lines).
Proof.
  intros Hp. apply negb_true_iff in Hp.
  unfold podEvents.
  rewrite ReproducerFacts.Sprintf_regarding_name,
    ReproducerFacts.ParseSelector_regarding_name by assumption.
  cbv beta iota zeta.
  unfold bind at 1. simpl (ifErr _ _). unfold ret at 1. cbv beta iota.
  unfold bind at 1. simpl (deref _). unfold ret at 1. cbv beta iota.
  replace (fields.Selector_String (fields.hasTerm "regarding.name" (apiv1.Pod_Name p)))
    with (selectorFor p)
    by (unfold selectorFor; simpl; now rewrite ReproducerFacts.EscapeValue_plain).
  unfold bind at 1, EventsList at 1. cbv beta iota.
  destruct Hcp as [_ Hev].
  destruct (Hev t ns {| metav1.FieldSelector := selectorFor p |}) as (l & Hl).
  rewrite Hl.
  unfold bind at 1. simpl (ifErr _ _). unfold ret at 1. cbv beta iota.
  unfold bind at 1. simpl (deref _). unfold ret at 1. cbv beta iota.
  destruct (forRange_classifyEvent_lines p (eventsv1.Items l)
              (t ++ [ListEvents ns {| metav1.FieldSelector := selectorFor p |}]))
    as (lines & Hlines).
  exists lines. rewrite Hlines. now rewrite <- app_assoc.
Qed.

Lemma forRange_podEvents_answering (ps : list apiv1.Pod) (t : Trace) :
  forallb plainName ps = true ->
  exists rest : Trace,
    forRange ps (podEvents cp c ns) t = Continue tt (t ++ rest)
    /\ eventQueries rest = map selectorFor ps
    /\ forallb notDelete rest = true.
Proof.
  revert t. induction ps as [|p ps IH]; intros t Hps; simpl.
  - exists []. rewrite app_nil_r. now repeat split.
  - simpl in Hps. apply andb_prop in Hps as [Hp Hps].
    destruct (podEvents_answering p t Hp) as (lines & H1).
    destruct (IH (t ++ ListEvents ns {| metav1.FieldSelector := selectorFor p |}
                    :: map Stdout lines) Hps) as (r2 & H2 & Q2 & D2).
    exists ((ListEvents ns {| metav1.FieldSelector := selectorFor p |} :: map Stdout lines) ++ r2).
    unfold bind. rewrite H1, H2. rewrite <- app_assoc.
    split; [reflexivity | split].
    + rewrite eventQueries_app. simpl. rewrite eventQueries_map_Stdout. simpl.
      now rewrite Q2.
    + rewrite forallb_app, D2. simpl.
      now rewrite forallb_map_Stdout.
Qed.

Lemma pollOnce_answering (t : Trace) :
  exists (l : apiv1.PodList) (rest : Trace),
    Pods_List cp t ns {| metav1.FieldSelector := "" |} = (Some l, None)
    /\ pollOnce cp c ns t =
       Continue tt (t ++ ListPods ns {| metav1.FieldSelector := "" |} :: rest ++ [Sleep 1])
    /\ eventQueries rest = map selectorFor (apiv1.Pod_Items l)
    /\ forallb notDelete rest = true.
Proof.
  destruct Hcp as [Hpods _].
  destruct (Hpods t ns {| metav1.FieldSelector := "" |}) as (l & Hl & Hplain).
  destruct (forRange_podEvents_answering (apiv1.Pod_Items l)
              (t ++ [ListPods ns {| metav1.FieldSelector := "" |}]) Hplain)
    as (rest & Hrest & Q & D).
  exists l, rest. split; [exact Hl | split; [ | split; assumption]].
  unfold pollOnce.
  unfold bind at 1, PodsList at 1. cbv beta iota. rewrite Hl.
  unfold bind at 1. simpl (ifErr _ _). unfold ret at 1. cbv beta iota.
  unfold bind at 1. simpl (deref _). unfold ret at 1. cbv beta iota.
  unfold bind at 1. rewrite Hrest. unfold time_Sleep, emit.
  now rewrite <- !app_assoc.
Qed.


End Answering.

(** X7. On a control plane whose listings succeed and whose pod names have
    no backslash, comma or equals sign, one turn of the loop lists the pods,
    makes exactly one event query per listed pod, in the order of the
    listing and with the selector "regarding.name=<name>", makes no delete
    call, sleeps one second and completes. *)
Theorem answered_turn_queries_each_pod (cp : ControlPlane) (c : DeploymentInterface)
        (ns : string) (t : Trace) :
  answering cp ->
  exists (l : apiv1.PodList) (rest : Trace),
    Pods_List cp t ns {| metav1.FieldSelector := "" |} = (Some l, None)
    /\ pollOnce cp c ns t =
       Continue tt (t ++ ListPods ns {| metav1.FieldSelector := "" |} :: rest ++ [Sleep 1])
    /\ eventQueries rest = map selectorFor (apiv1.Pod_Items l)
    /\ teardownCount rest = 0.
Proof.
  intros Hcp.
  destruct (pollOnce_answering cp Hcp c ns t) as (l & rest & Hl & H & Q & D).
  exists l, rest. repeat split; try assumption.
  unfold teardownCount. now rewrite (filter_none isDelete rest D).
Qed.

Lemma answered_turn_queries_each_pod_witness :
  exists (l : apiv1.PodList) (rest : Trace),
    Pods_List (onePodOneEvent (podEvent "web-1" 5 None)) [] "default"
              {| metav1.FieldSelector := "" |} = (Some l, None)
    /\ pollOnce (onePodOneEvent (podEvent "web-1" 5 None)) "default" "default" [] =
       Continue tt ([] ++ ListPods "default" {| metav1.FieldSelector := "" |}
                       :: rest ++ [Sleep 1])
    /\ eventQueries rest = map selectorFor (apiv1.Pod_Items l)
    /\ teardownCount rest = 0.
Proof.
  apply (answered_turn_queries_each_pod (onePodOneEvent (podEvent "web-1" 5 None))
                                        "default" "default" []).
  split; intros; eexists; [split | ]; reflexivity.
Defined.



(** *** Error paths *)

(** X9. When the creation fails and the deletion attempted right after it
    fails too, main ends with a panic that carries the deletion's error: the
    creation error has been printed, the "Created deployment" line is not,
    and the loop is never entered, however many turns are allowed. *)
Theorem failed_create_then_failed_delete_panics
        (cp : ControlPlane) (result : option appsv1.Deployment) (e e' : error) (turns : nat) :
  clientsetError cp = None ->
  Deployments_Create cp [Stdout ("Creating deployment..." ++ LF)%string] "default" deployment
  = (result, Some e) ->
  Deployments_Delete cp
    [ Stdout ("Creating deployment..." ++ LF)%string;
      CreateDeployment "default" deployment;
      Stdout ("Error creating deployment: " ++ e)%string;
      Stdout ("Deleting deployment..." ++ LF)%string ]
    "default" "event-count-issue-reproducer" foreground = Some e' ->
  main cp turns [] =
  Stop (Panic e')
       [ Stdout ("Creating deployment..." ++ LF)%string;
         CreateDeployment "default" deployment;
         Stdout ("Error creating deployment: " ++ e)%string;
         Stdout ("Deleting deployment..." ++ LF)%string;
         DeleteDeployment "default" "event-count-issue-reproducer" foreground ].
Proof.
  intros Hboot Hcreate Hdelete.
  unfold main, getClientset. rewrite Hboot.
  unfold bind at 1, ret at 1. cbv beta iota zeta.
  unfold bind at 1, Println at 1, emit at 1. cbv beta iota.
  unfold bind at 1, Create at 1. cbv beta iota.
  change ([] ++ [Stdout ("Creating deployment..." ++ LF)%string])
    with [Stdout ("Creating deployment..." ++ LF)%string].
  change apiv1.NamespaceDefault with "default".
  rewrite Hcreate.
  unfold bind at 1. simpl (ifErr _ _).
  unfold bind at 1, Printf at 1, emit at 1. cbv beta iota.
  rewrite ReproducerFacts.cleanupAndExit_spec.
  replace (Sprintf "Error creating deployment: %s" [ArgStr e])
    with ("Error creating deployment: " ++ e)%string
    by (cbn; now rewrite FmtFacts.append_nil_r).
  match goal with
  | |- context [Deployments_Delete cp ?tr ?a ?b ?o] =>
      replace (Deployments_Delete cp tr a b o) with (Some e') by (symmetry; exact Hdelete)
  end.
  reflexivity.
Qed.

Lemma failed_create_then_failed_delete_panics_witness :
  main unreachable 4 [] =
  Stop (Panic "connection refused")
       [ Stdout ("Creating deployment..." ++ LF)%string;
         CreateDeployment "default" deployment;
         Stdout "Error creating deployment: connection refused";
         Stdout ("Deleting deployment..." ++ LF)%string;
         DeleteDeployment "default" "event-count-issue-reproducer" foreground ].
Proof.
  apply (failed_create_then_failed_delete_panics
           unreachable (Some zeroDeployment) "connection refused" "connection refused" 4);
    reflexivity.
Defined.

(** X10. When the listing of pods fails and the deletion attempted right
    after it fails too, the turn ends the process with a panic that carries
    the deletion's error, after the listing error has been printed; no event
    query is made and the loop does not sleep. *)
Theorem listing_error_then_failed_delete_panics
        (cp : ControlPlane) (c : DeploymentInterface) (ns : string) (t : Trace)
        (l : option apiv1.PodList) (e e' : error) :
  Pods_List cp t ns {| metav1.FieldSelector := "" |} = (l, Some e) ->
  Deployments_Delete cp
    (t ++ [ ListPods ns {| metav1.FieldSelector := "" |};
            Stdout ("Error listing pods: " ++ e)%string;
            Stdout ("Deleting deployment..." ++ LF)%string ])
    c "event-count-issue-reproducer" foreground = Some e' ->
  pollOnce cp c ns t =
  Stop (Panic e')
       (t ++ [ ListPods ns {| metav1.FieldSelector := "" |};
               Stdout ("Error listing pods: " ++ e)%string;
               Stdout ("Deleting deployment..." ++ LF)%string;
               DeleteDeployment c "event-count-issue-reproducer" foreground ]).
Proof.
  intros Hlist Hdelete.
  unfold pollOnce.
  unfold bind at 1, PodsList at 1. cbv beta iota. rewrite Hlist.
  unfold bind at 1. simpl (ifErr _ _).
  unfold bind at 1, Printf at 1, emit at 1. cbv beta iota.
  rewrite ReproducerFacts.cleanupAndExit_spec.
  replace (Sprintf "Error listing pods: %s" [ArgStr e])
    with ("Error listing pods: " ++ e)%string
    by (cbn; now rewrite FmtFacts.append_nil_r).
  match goal with
  | |- context [Deployments_Delete cp ?tr ?a ?b ?o] =>
      replace (Deployments_Delete cp tr a b o) with (Some e')
        by (rewrite <- Hdelete; f_equal; now rewrite <- !app_assoc)
  end.
  now rewrite <- !app_assoc.
Qed.

Lemma listing_error_then_failed_delete_panics_witness :
  pollOnce unreachable "default" "default" [] =
  Stop (Panic "connection refused")
       ([] ++ [ ListPods "default" {| metav1.FieldSelector := "" |};
                Stdout "Error listing pods: connection refused";
                Stdout ("Deleting deployment..." ++ LF)%string;
                DeleteDeployment "default" "event-count-issue-reproducer" foreground ]).
Proof.
  apply (listing_error_then_failed_delete_panics
           unreachable "default" "default" [] (pods []) "connection refused"
           "connection refused"); reflexivity.
Defined.




(** *** More turns *)




End RunFacts.
